(** Verification of [src/lib.rs] of anymap: a [HashMap<K, Value>] whose
    values are type-erased [Box<dyn Any>] boxes.

    Rust's [dyn Any] is embedded with an explicit universe of type codes:
    [typ] stands for the ['static] Rust types, [denote t] is the Rocq type of
    the values of [t], and [typ_eq_dec] is the [TypeId] comparison that
    [Any::is] and [downcast_ref] perform.  A [Value] is the pair of the
    [TypeId] of the boxed value and the value itself.  The [HashMap] is a
    stdpp [gmap]; the [Borrow<Q>] generality of [get], [contains_key] and
    [remove] is taken at [Q = K]. *)

From Stdlib Require Import Eqdep_dec ZArith.
From stdpp Require Import base gmap strings.

(** The ['static] types a [dyn Any] can hold, with their [TypeId]
    comparison. *)
Class AnyTypes : Type := {
  typ : Type;
  typ_eq_dec : forall a b : typ, {a = b} + {a <> b};
  denote : typ -> Type
}.

Section AnyMap.

Context `{AT : AnyTypes}.

(** [pub struct Value { inner: Box<dyn Any> }] *)
Definition Value : Type := { t : typ & denote t }.

(** [Value::new<T: Any>(value: T) -> Self] *)
Definition Value_new (T : typ) (value : denote T) : Value := existT T value.

(** [self.inner.is::<T>()] (through the deref of the box): [TypeId::of::<T>() == self.type_id()] *)
Definition Value_is (T : typ) (self : Value) : bool :=
  if typ_eq_dec (projT1 self) T then true else false.

(** [self.inner.downcast_ref::<T>()] (through the deref of the box): [Some] of the payload seen at [T]
    when the [TypeId]s agree, [None] otherwise. *)
Definition Value_as_type (T : typ) (self : Value) : option (denote T) :=
  match typ_eq_dec (projT1 self) T with
  | left e => Some (eq_rect (projT1 self) denote (projT2 self) T e)
  | right _ => None
  end.

(** [Value::into_inner]: the box itself. *)
Definition Value_into_inner (self : Value) : Value := self.

Context {K : Type} `{Countable K}.

(** [pub struct AnyMap<K> { map: HashMap<K, Value> }] *)
Record AnyMap : Type := mkAnyMap { map : gmap K Value }.

(** [AnyMap::new]: [HashMap::new()]. *)
Definition AnyMap_new : AnyMap := mkAnyMap ∅.

(** [AnyMap::with_capacity]: the capacity is not observable by the
    operations below. *)
Definition AnyMap_with_capacity (capacity : nat) : AnyMap := mkAnyMap ∅.

(** [impl Default for AnyMap]: [AnyMap::new()]. *)
Definition AnyMap_default : AnyMap := AnyMap_new.

(** [self.map.len()] *)
Definition len (self : AnyMap) : nat := size (map self).

(** [self.map.is_empty()], which [HashMap] defines as [self.len() == 0]. *)
Definition is_empty (self : AnyMap) : bool := Nat.eqb (len self) 0.

(** [self.map.clear()] *)
Definition clear (self : AnyMap) : AnyMap := mkAnyMap ∅.

(** [self.map.get(key)] *)
Definition get (self : AnyMap) (key : K) : option Value := map self !! key.

(** [self.map.get(key).and_then(|v| v.as_type::<T>())] *)
Definition get_typed (T : typ) (self : AnyMap) (key : K) : option (denote T) :=
  match map self !! key with
  | Some v => Value_as_type T v
  | None => None
  end.

(** [self.map.contains_key(key)] *)
Definition contains_key (self : AnyMap) (key : K) : bool :=
  match map self !! key with Some _ => true | None => false end.

(** [self.map.insert(key, value)]: the previous value and the new map. *)
Definition insert_val (self : AnyMap) (key : K) (value : Value)
  : option Value * AnyMap :=
  (map self !! key, mkAnyMap (<[key := value]> (map self))).

(** [self.map.insert(key, Value::new(value))] *)
Definition insert (T : typ) (self : AnyMap) (key : K) (value : denote T)
  : option Value * AnyMap :=
  (map self !! key, mkAnyMap (<[key := Value_new T value]> (map self))).

(** [self.map.remove(key)]: the evicted value and the new map. *)
Definition remove (self : AnyMap) (key : K) : option Value * AnyMap :=
  (map self !! key, mkAnyMap (delete key (map self))).

(** [self.map.iter()]: every entry once, in the [HashMap]'s own order,
    which Rust leaves unspecified; only order-independent facts about it
    are proved. *)
Definition iter (self : AnyMap) : list (K * Value) := map_to_list (map self).

(** [self.map.keys()]: the keys of [iter], in the same order. *)
Definition keys (self : AnyMap) : list K := fst <$> iter self.

(** [self.map.values()]: the values of [iter], in the same order. *)
Definition values (self : AnyMap) : list Value := snd <$> iter self.

End AnyMap.

(** A concrete universe for running the operations: [i32] and [i64] (both
    integers, distinct [TypeId]s), [&str] and [String]. *)
Inductive rty : Type := Ti32 | Ti64 | Tstr | TString.

Definition rty_eq_dec (a b : rty) : {a = b} + {a <> b}.
Proof. decide equality. Defined.

Definition rden (t : rty) : Type :=
  match t with Ti32 | Ti64 => Z | Tstr | TString => string end.

#[global] Instance rust_types : AnyTypes :=
  {| typ := rty; typ_eq_dec := rty_eq_dec; denote := rden |}.

Arguments Value_new {_} T value.
Arguments Value_is {_} T self.
Arguments Value_as_type {_} T self.
Arguments get_typed {_ _ _ _} T self key.
Arguments insert {_ _ _ _} T self key value.

(** The doc-test scenario: [map.insert("key", "value"); map.insert("key2", 1)]. *)
Definition doc_map : AnyMap (K := string) :=
  snd (insert (AT := rust_types) Ti32
    (snd (insert (AT := rust_types) Tstr AnyMap_new "key"%string ("value"%string : rden Tstr)))
    "key2"%string (1%Z : rden Ti32)).

(** A [&str] value used by the witnesses. *)
Definition w_x : Value (AT := rust_types) := Value_new (AT := rust_types) Tstr ("x"%string : rden Tstr).

Example doc_get_str : get_typed (AT := rust_types) Tstr doc_map "key"%string = Some "value"%string.
Proof. reflexivity. Qed.
Example doc_get_i32 : get_typed (AT := rust_types) Ti32 doc_map "key2"%string = Some 1%Z.
Proof. reflexivity. Qed.
Example doc_get_wrong : get_typed (AT := rust_types) Ti32 doc_map "key"%string = None.
Proof. reflexivity. Qed.
Example doc_len : len doc_map = 2.
Proof. reflexivity. Qed.

Section AnyMapProofs.

Context `{AT : AnyTypes}.
Context {K : Type} `{Countable K}.

Implicit Types (m : AnyMap (K := K)) (k : K) (T U : typ).

(** Downcasting to the type a value was boxed at gives the value back:
    [TypeId] equality is decidable, so the cast proof is the identity. *)
Lemma as_type_new_same T (v : denote T) : Value_as_type T (Value_new T v) = Some v.
Proof.
  unfold Value_as_type, Value_new; simpl.
  destruct (typ_eq_dec T T) as [e|n]; [|congruence].
  f_equal. symmetry. apply (Eqdep_dec.eq_rect_eq_dec typ_eq_dec).
Qed.

Lemma as_type_some_iff_is T (w : Value) :
  is_Some (Value_as_type T w) <-> Value_is T w = true.
Proof.
  unfold Value_as_type, Value_is.
  destruct (typ_eq_dec (projT1 w) T); split; intros Hs; done.
Qed.

Lemma is_new_iff T U (v : denote T) : Value_is U (Value_new T v) = true <-> U = T.
Proof.
  unfold Value_is, Value_new; simpl.
  destruct (typ_eq_dec T U); split; intros; subst; congruence.
Qed.

Lemma is_new_false_iff T U (v : denote T) :
  Value_is U (Value_new T v) = false <-> U <> T.
Proof.
  pose proof (is_new_iff T U v) as Hi.
  destruct (Value_is U (Value_new T v)); split; intros Hx; try done.
  - exfalso. apply Hx. by apply Hi.
  - intros ->. destruct Hi as [_ Hi]. by specialize (Hi eq_refl).
Qed.

Lemma as_type_new_none_iff T U (v : denote T) :
  Value_as_type U (Value_new T v) = None <-> U <> T.
Proof.
  rewrite <- (is_new_iff T U v), <- as_type_some_iff_is.
  destruct (Value_as_type U (Value_new T v)); split; intros Hx.
  - done.
  - exfalso. apply Hx. by eexists.
  - intros [? ?]; done.
  - done.
Qed.

(** C1: after [insert(k, v)] the key is present and [get_typed] at the type
    of [v] returns [v]; [insert] returns the previous value under [k], so
    [None] exactly on an absent key; inserting a second value under [k]
    returns the first [Value] and leaves only the second one under [k]. *)
Theorem C1_insert_overwrite T U m k (v : denote T) (w : denote U) :
  contains_key (snd (insert T m k v)) k = true /\
  get_typed T (snd (insert T m k v)) k = Some v /\
  fst (insert T m k v) = get m k /\
  (fst (insert T m k v) = None <-> contains_key m k = false) /\
  fst (insert U (snd (insert T m k v)) k w) = Some (Value_new T v) /\
  get (snd (insert U (snd (insert T m k v)) k w)) k = Some (Value_new U w) /\
  get_typed U (snd (insert U (snd (insert T m k v)) k w)) k = Some w.
Proof.
  unfold insert, contains_key, get_typed, get; simpl.
  rewrite !lookup_insert_eq, !as_type_new_same.
  repeat split; try done.
  - by destruct (map m !! k).
  - by destruct (map m !! k).
Qed.

(** C2: [get_typed::<T>(k)] is [get(k)] followed by [as_type::<T>()]; it
    returns [None] exactly when [k] is absent or the stored value is not of
    type [T]. *)
Theorem C2_get_typed_compose T m k :
  get_typed T m k = (get m k ≫= Value_as_type T) /\
  (get_typed T m k = None <->
     get m k = None \/ exists v, get m k = Some v /\ Value_is T v = false).
Proof.
  unfold get_typed, get.
  split; [by destruct (map m !! k)|].
  destruct (map m !! k) as [v|]; [|split; auto].
  pose proof (as_type_some_iff_is T v) as Hv.
  split.
  - intros Hn. right. exists v. split; [done|].
    destruct (Value_is T v); [|done].
    destruct Hv as [_ Hv]. rewrite Hn in Hv. by destruct Hv.
  - intros [Hn|(v' & Hv' & Hf)]; [done|].
    injection Hv' as <-.
    destruct (Value_as_type T v) eqn:E; [|done].
    rewrite (proj1 Hv ltac:(by eexists)) in Hf. done.
Qed.

(** C3: [Value::new(v).is::<U>()] holds exactly when [U] is the type [T]
    [v] was boxed at: true at [T], false at every other type. *)
Theorem C3_is_exact T (v : denote T) :
  Value_is T (Value_new T v) = true /\
  (forall U, Value_is U (Value_new T v) = false <-> U <> T).
Proof.
  split; [by apply is_new_iff|].
  intros U. apply is_new_false_iff.
Qed.

(** C4: [Value::new(v).as_type::<T>()] is [Some v]; at any other type it is
    [None]; and for every value [as_type::<T>()] is [Some] exactly when
    [is::<T>()] holds. *)
Theorem C4_as_type_exact T (v : denote T) :
  Value_as_type T (Value_new T v) = Some v /\
  (forall U, Value_as_type U (Value_new T v) = None <-> U <> T) /\
  (forall U (w : Value), is_Some (Value_as_type U w) <-> Value_is U w = true).
Proof.
  split; [apply as_type_new_same|].
  split; [|apply as_type_some_iff_is].
  intros U. apply as_type_new_none_iff.
Qed.

(** C5: after [remove(k)] the key is absent and a second [remove(k)]
    returns [None]; [remove] returns the value that was stored under [k],
    [Some] exactly when [k] was present. *)
Theorem C5_remove_idempotent m k :
  contains_key (snd (remove m k)) k = false /\
  fst (remove (snd (remove m k)) k) = None /\
  fst (remove m k) = get m k /\
  (is_Some (fst (remove m k)) <-> contains_key m k = true).
Proof.
  unfold remove, contains_key, get; simpl.
  rewrite !lookup_delete_eq.
  repeat split; try done.
  - intros [x Hx]. by rewrite Hx.
  - destruct (map m !! k); [by eexists|done].
Qed.

(** C6: [len()] is the number of distinct keys present (the size of the key
    set, whose members are exactly the keys [contains_key] reports),
    [is_empty()] holds exactly when [len()] is 0, and [clear()] leaves the
    map equal to a fresh [AnyMap::new()], so of length 0 and empty. *)
Theorem C6_len_clear m :
  len m = size (dom (map m)) /\
  (forall k, k ∈ dom (map m) <-> contains_key m k = true) /\
  (is_empty m = true <-> len m = 0) /\
  clear m = AnyMap_new /\ len (clear m) = 0 /\ is_empty (clear m) = true.
Proof.
  unfold len, is_empty, clear, contains_key.
  split; [symmetry; apply size_dom|].
  split.
  - intros k. rewrite elem_of_dom. destruct (map m !! k); split; intros Hx.
    + done.
    + by eexists.
    + by destruct Hx.
    + done.
  - split; [apply Nat.eqb_eq|]. split; [done|].
    cbn [map]. rewrite map_size_empty. done.
Qed.

(** C7: missing keys and mistyped reads give [None] and never fail: after
    [remove(k)], [get], [get_typed] and a second [remove] at [k] return
    [None] (the last one leaving the map as it is); reading a value at a
    type other than its own through [is], [as_type] or [get_typed] gives
    [false] or [None]; clearing an empty map gives the empty map. *)
Theorem C7_misuse_is_absence T U m k (v : denote U) :
  get (snd (remove m k)) k = None /\
  get_typed T (snd (remove m k)) k = None /\
  remove (snd (remove m k)) k = (None, snd (remove m k)) /\
  (Value_is T (Value_new U v) = false <-> T <> U) /\
  (Value_as_type T (Value_new U v) = None <-> T <> U) /\
  (get_typed T (snd (insert U m k v)) k = None <-> T <> U) /\
  clear AnyMap_new = (AnyMap_new (K := K)).
Proof.
  pose proof (is_new_false_iff U T v) as Hi.
  pose proof (as_type_new_none_iff U T v) as Ha.
  unfold remove, get, get_typed, insert; simpl.
  rewrite !lookup_delete_eq, delete_delete_eq, lookup_insert_eq.
  repeat split; try done; by apply Hi || apply Ha.
Qed.

(** C9: [insert(k, v)], [insert_val(k, v)] and [remove(k)] leave [get] at
    every other key [k'] unchanged, hence also [contains_key] and
    [get_typed] there. *)
Theorem C9_frame T m k k' (v : denote T) (w : Value) :
  k <> k' ->
  get (snd (insert T m k v)) k' = get m k' /\
  get (snd (insert_val m k w)) k' = get m k' /\
  get (snd (remove m k)) k' = get m k' /\
  contains_key (snd (insert T m k v)) k' = contains_key m k' /\
  contains_key (snd (remove m k)) k' = contains_key m k' /\
  (forall U, get_typed U (snd (insert T m k v)) k' = get_typed U m k') /\
  (forall U, get_typed U (snd (remove m k)) k' = get_typed U m k').
Proof.
  intros Hne.
  unfold get, insert, insert_val, remove, contains_key, get_typed; simpl.
  rewrite !lookup_insert_ne, !lookup_delete_ne by done.
  repeat split; done.
Qed.

(** C10: [AnyMap::default()] is [AnyMap::new()]: length 0, empty, and
    without any key. *)
Theorem C10_default_new :
  AnyMap_default = (AnyMap_new (K := K)) /\
  len (AnyMap_default (K := K)) = 0 /\
  is_empty (AnyMap_default (K := K)) = true /\
  (forall k, contains_key AnyMap_default k = false).
Proof.
  unfold AnyMap_default, AnyMap_new, len, is_empty, contains_key; simpl.
  rewrite map_size_empty. repeat split; try done.
Qed.

(** [insert_val(k, w)] returns what [get(k)] gave before, after which
    [get(k)] is [Some w] and [contains_key(k)] holds. *)
Lemma insert_val_get m k (w : Value) :
  fst (insert_val m k w) = get m k /\
  get (snd (insert_val m k w)) k = Some w /\
  contains_key (snd (insert_val m k w)) k = true.
Proof.
  unfold insert_val, get, contains_key; simpl.
  by rewrite lookup_insert_eq.
Qed.

(** [insert_val] grows [len()] by one on a new key and keeps it on a
    present key. *)
Lemma len_insert_val m k (w : Value) :
  len (snd (insert_val m k w)) =
    if contains_key m k then len m else S (len m).
Proof.
  unfold len, insert_val, contains_key; simpl.
  rewrite map_size_insert. by destruct (map m !! k).
Qed.

(** [remove] shrinks [len()] by one on a present key and keeps it on an
    absent key. *)
Lemma len_remove m k :
  len (snd (remove m k)) =
    if contains_key m k then pred (len m) else len m.
Proof.
  unfold len, remove, contains_key; simpl.
  rewrite map_size_delete. by destruct (map m !! k).
Qed.

(** Inserting under a key that was absent and removing it again gives
    back the same value and the original map. *)
Lemma remove_insert_val_fresh m k (w : Value) :
  contains_key m k = false ->
  remove (snd (insert_val m k w)) k = (Some w, m).
Proof.
  unfold contains_key, remove, insert_val; simpl.
  intros Hk. destruct (map m !! k) eqn:E; [done|].
  rewrite lookup_insert_eq, delete_insert_id by done.
  by destruct m.
Qed.

(** Putting back the value [remove(k)] evicted restores the map, and the
    [insert_val] reports no previous value. *)
Lemma insert_val_remove_restore m k (w : Value) :
  fst (remove m k) = Some w ->
  insert_val (snd (remove m k)) k w = (None, m).
Proof.
  unfold remove, insert_val; simpl.
  intros Hk.
  rewrite lookup_delete_eq, insert_delete_id by done.
  by destruct m.
Qed.

(** Inserting over a key first removes nothing observable: [insert_val]
    after [remove(k)] gives the same map as [insert_val] alone. *)
Lemma insert_val_after_remove m k (w : Value) :
  snd (insert_val (snd (remove m k)) k w) = snd (insert_val m k w).
Proof.
  unfold insert_val, remove; simpl. by rewrite insert_delete_eq.
Qed.

(** A second [insert_val] under the same key overwrites the first: the
    resulting map is that of the second insertion alone. *)
Lemma insert_val_twice m k (w1 w2 : Value) :
  snd (insert_val (snd (insert_val m k w1)) k w2) = snd (insert_val m k w2).
Proof.
  unfold insert_val; simpl. by rewrite insert_insert_eq.
Qed.

(** Insertions under distinct keys commute. *)
Lemma insert_val_commute m k k' (w w' : Value) :
  k <> k' ->
  snd (insert_val (snd (insert_val m k w)) k' w') =
  snd (insert_val (snd (insert_val m k' w')) k w).
Proof.
  intros Hne. unfold insert_val; simpl.
  by rewrite insert_insert_ne.
Qed.

(** [remove] of a key that was inserted under a different key gives the
    same map as removing first and inserting after. *)
Lemma remove_insert_val_commute m k k' (w : Value) :
  k <> k' ->
  snd (remove (snd (insert_val m k w)) k') =
  snd (insert_val (snd (remove m k')) k w).
Proof.
  intros Hne. unfold insert_val, remove; simpl.
  rewrite insert_delete, decide_False by done. done.
Qed.

(** [iter()] lists exactly the stored entries, each once: a pair is in it
    exactly when [get] finds that value under that key, its keys have no
    duplicates, and it has [len()] elements. *)
Lemma iter_spec m :
  (forall k (w : Value), (k, w) ∈ iter m <-> get m k = Some w) /\
  NoDup (fst <$> iter m) /\
  length (iter m) = len m.
Proof.
  unfold iter, get, len.
  split; [intros; apply elem_of_map_to_list|].
  split; [apply NoDup_fst_map_to_list|apply length_map_to_list].
Qed.

(** [keys()] lists each present key exactly once: [k] is in it exactly
    when [contains_key(k)], and it has [len()] elements. *)
Lemma keys_spec m :
  (forall k, k ∈ keys m <-> contains_key m k = true) /\
  NoDup (keys m) /\
  length (keys m) = len m.
Proof.
  destruct (iter_spec m) as (Hin & Hnd & Hlen).
  unfold keys. split; [|split; [done|by rewrite length_fmap]].
  intros k. rewrite list_elem_of_fmap. unfold contains_key.
  split.
  - intros ([k' w] & -> & Hw). apply Hin in Hw. unfold get in Hw.
    simpl. by rewrite Hw.
  - destruct (map m !! k) as [w|] eqn:E; [|done]. intros _.
    exists (k, w). split; [done|]. apply Hin. exact E.
Qed.

(** [values()] has [len()] elements, and a value is in it exactly when
    [get] finds it under some key. *)
Lemma values_spec m :
  (forall w : Value, w ∈ values m <-> exists k, get m k = Some w) /\
  length (values m) = len m.
Proof.
  destruct (iter_spec m) as (Hin & _ & Hlen).
  unfold values. split; [|by rewrite length_fmap].
  intros w. rewrite list_elem_of_fmap. split.
  - intros ([k w'] & -> & Hw). exists k. by apply Hin.
  - intros [k Hk]. exists (k, w). split; [done|]. by apply Hin.
Qed.

(** [is_empty()] holds exactly when no key is present, and exactly when
    [keys()] is empty. *)
Lemma is_empty_spec m :
  (is_empty m = true <-> forall k, contains_key m k = false) /\
  (is_empty m = true <-> keys m = []).
Proof.
  unfold is_empty, len, keys, iter, contains_key.
  rewrite Nat.eqb_eq, map_size_empty_iff, map_empty.
  split.
  - split; intros Hx k; specialize (Hx k).
    + by rewrite Hx.
    + by destruct (map m !! k).
  - rewrite <- map_empty, <- map_to_list_empty_iff. split.
    + intros Hx. by rewrite Hx.
    + apply fmap_nil_inv.
Qed.

(** After [insert_val] the map is not empty. *)
Lemma insert_val_not_empty m k (w : Value) :
  is_empty (snd (insert_val m k w)) = false.
Proof.
  unfold is_empty, len, insert_val; simpl.
  apply Nat.eqb_neq. rewrite map_size_empty_iff.
  apply insert_non_empty.
Qed.

End AnyMapProofs.

(** Exact [TypeId]s: an [i32] is not an [i64], though both hold integers. *)
Example no_widening :
  Value_is (AT := rust_types) Ti64 (Value_new (AT := rust_types) Ti32 (1%Z : rden Ti32)) = false.
Proof. reflexivity. Qed.

(** The second doc scenario: [insert("key", "value")] then
    [insert("key", 42)]. *)
Example overwrite_scenario :
  let m1 := snd (insert (AT := rust_types) Tstr AnyMap_new "key"%string ("value"%string : rden Tstr)) in
  let r := insert (AT := rust_types) Ti32 m1 "key"%string (42%Z : rden Ti32) in
  fst r = Some (Value_new (AT := rust_types) Tstr ("value"%string : rden Tstr)) /\
  get_typed Ti32 (snd r) "key"%string = Some 42%Z /\
  get_typed Tstr (snd r) "key"%string = None.
Proof. split; [|split]; reflexivity. Qed.

(** C9 at [insert("a", 1)] on the doc map, read back at ["key"]. *)
Lemma C9_frame_witness :
  "a"%string <> "key"%string /\
  get (snd (insert (AT := rust_types) Ti32 doc_map "a"%string (1%Z : rden Ti32))) "key"%string
    = get doc_map "key"%string.
Proof.
  split; [discriminate|].
  apply (C9_frame (AT := rust_types) Ti32 doc_map "a"%string "key"%string
           (1%Z : rden Ti32) (Value_new (AT := rust_types) Tstr ("x"%string : rden Tstr))).
  discriminate.
Defined.

(** Witnesses on the doc map, with a fresh key ["new"], the present keys
    ["key"] and ["key2"], and the value [w_x]. *)

Lemma remove_insert_val_fresh_witness :
  contains_key doc_map "new"%string = false /\
  remove (snd (insert_val doc_map "new"%string w_x)) "new"%string = (Some w_x, doc_map).
Proof.
  split; [reflexivity|].
  apply remove_insert_val_fresh. reflexivity.
Defined.

Lemma insert_val_remove_restore_witness :
  fst (remove doc_map "key"%string)
    = Some (Value_new (AT := rust_types) Tstr ("value"%string : rden Tstr)) /\
  insert_val (snd (remove doc_map "key"%string)) "key"%string
    (Value_new (AT := rust_types) Tstr ("value"%string : rden Tstr)) = (None, doc_map).
Proof.
  split; [reflexivity|].
  apply insert_val_remove_restore. reflexivity.
Defined.

Lemma insert_val_commute_witness :
  "key"%string <> "new"%string /\
  snd (insert_val (snd (insert_val doc_map "key"%string w_x)) "new"%string w_x) =
  snd (insert_val (snd (insert_val doc_map "new"%string w_x)) "key"%string w_x).
Proof.
  split; [discriminate|].
  apply insert_val_commute. discriminate.
Defined.

Lemma remove_insert_val_commute_witness :
  "new"%string <> "key2"%string /\
  snd (remove (snd (insert_val doc_map "new"%string w_x)) "key2"%string) =
  snd (insert_val (snd (remove doc_map "key2"%string)) "new"%string w_x).
Proof.
  split; [discriminate|].
  apply remove_insert_val_commute. discriminate.
Defined.
